(** * nestjs-mssql-orm: a shallow embedding of [src/index.ts]

    The development follows the source file top to bottom: the two
    decorators that fill the reflection metadata ([Table], [Column]), the
    behaviour class [_MssqlTable] with its process-wide pool, the factory
    [TableFactory.createForClass], and then the properties of each.

    Conventions of the model:
    - a JavaScript string is a [string] of code units below 256;
    - a row is a record of own data properties, [gmap string jsval];
    - the static [_MssqlTable.pool], the console and everything handed to
      the [mssql] driver live in a [World] that is threaded explicitly;
    - a synchronous call ends in a [Completion] (returned or thrown), an
      [async] function in a [Settled] promise (resolved or rejected). *)

From Stdlib Require Import ZArith NArith String Ascii List Bool Lia.
From stdpp Require Import gmap strings list fin_maps.
Import ListNotations.

Open Scope string_scope.
Open Scope list_scope.

(** ** Strings: [toLowerCase], the [useDb] pattern, [querystring.escape] *)

Module Str.

Definition code (c : ascii) : N := N_of_ascii c.

Definition between (lo hi : N) (c : ascii) : bool :=
  ((lo <=? code c) && (code c <=? hi))%N.

Definition is_upper (c : ascii) : bool := between 65 90 c.
Definition is_lower (c : ascii) : bool := between 97 122 c.
Definition is_digit (c : ascii) : bool := between 48 57 c.

(** Upper-case letters of the Latin-1 supplement: U+00C0..U+00DE without
    the multiplication sign U+00D7. *)
Definition is_upper_latin1 (c : ascii) : bool :=
  between 192 222 c && negb (code c =? 215)%N.

Definition lower_unit (c : ascii) : ascii :=
  if is_upper c || is_upper_latin1 c then ascii_of_N (code c + 32) else c.

(** [String.prototype.toLowerCase] *)
Fixpoint toLowerCase (s : string) : string :=
  match s with
  | EmptyString => EmptyString
  | String c rest => String (lower_unit c) (toLowerCase rest)
  end.

(** The character class of [/[^a-zA-Z0-9_]/], before negation. *)
Definition is_word (c : ascii) : bool :=
  is_lower c || is_upper c || is_digit c || (code c =? 95)%N.

(** [/[^a-zA-Z0-9_]/.test(s)]: some code unit lies outside the class. *)
Fixpoint forbiddenChars_test (s : string) : bool :=
  match s with
  | EmptyString => false
  | String c rest => negb (is_word c) || forbiddenChars_test rest
  end.

Definition hex_digit (n : N) : ascii :=
  if (n <? 10)%N then ascii_of_N (48 + n) else ascii_of_N (55 + n).

(** One entry of Node's [hexTable]: a percent sign and two upper-case
    hexadecimal digits. *)
Definition percent (byte : N) : string :=
  String "%" (String (hex_digit (byte / 16)) (String (hex_digit (byte mod 16)) EmptyString)).

(** Node's [noEscape] table for [querystring.escape]:
    [A-Z a-z 0-9 - _ . ! ~ * ' ( )]. *)
Definition no_escape (c : ascii) : bool :=
  is_word c
  || (code c =? 45)%N || (code c =? 46)%N || (code c =? 33)%N
  || (code c =? 126)%N || (code c =? 42)%N || (code c =? 39)%N
  || (code c =? 40)%N || (code c =? 41)%N.

Definition escape_unit (c : ascii) : string :=
  if no_escape c then String c EmptyString
  else if (code c <? 128)%N then percent (code c)
  else percent (192 + code c / 64) +:+ percent (128 + code c mod 64).

(** [escape] of [node:querystring] *)
Fixpoint escape (s : string) : string :=
  match s with
  | EmptyString => EmptyString
  | String c rest => escape_unit c +:+ escape rest
  end.

End Str.

(** ** JavaScript values, errors and the two kinds of result *)

Inductive jsval : Type :=
  | VUndefined
  | VNull
  | VBool (b : bool)
  | VNum (z : Z)
  | VStr (s : string).

(** The errors the file can surface: [new Error(message)], the engine's
    [TypeError], and whatever the driver reports. *)
Inductive JsError : Type :=
  | Error (message : string)
  | TypeError (message : string)
  | DriverError (code : string).

Inductive Completion (A : Type) : Type :=
  | Returned (a : A)
  | Thrown (e : JsError).
Arguments Returned {A} a.
Arguments Thrown {A} e.

Inductive Settled (A : Type) : Type :=
  | Resolved (a : A)
  | Rejected (e : JsError).
Arguments Resolved {A} a.
Arguments Rejected {A} e.

Definition pool_not_initialized : JsError := Error "Pool not initialized".
Definition config_required : JsError := Error "MSSQL_MODULE_OPTIONS.config is required".
Definition invalid_database_name (name : string) : JsError :=
  Error ("Invalid database name '" +:+ name +:+ "'").

(** ** Reflection metadata *)

(** An entity class: its identity (the key of [Reflect] metadata), its
    [name], and the own data properties [new table()] produces. *)
Record Class : Type := {
  class_id : positive;
  class_name : string;
  class_fields : gmap string jsval
}.

Inductive SqlType : Type :=
  | SqlBigInt
  | SqlBit
  | SqlInt
  | SqlNVarChar (length : nat)
  | SqlCustom (tag : string).

Record ColumnMetadata : Type := {
  column : string;
  columnName : string;
  type : SqlType
}.

Inductive TypeofReturnValue : Type :=
  | TyBigint | TyBoolean | TyFunction | TyNumber
  | TyObject | TyString | TySymbol | TyUndefined.

Definition sqlTypes (t : TypeofReturnValue) : SqlType :=
  match t with
  | TyBigint => SqlBigInt
  | TyBoolean => SqlBit
  | TyNumber => SqlInt
  | TyString | TyFunction | TyObject | TySymbol | TyUndefined => SqlNVarChar 128
  end.

(** The two metadata keys of the file, [tableMetadataKey] and
    [columnMetadataKey], each a table keyed by class identity. *)
Record Registry : Type := {
  tableMetadata : gmap positive string;
  columnMetadata : gmap positive (list ColumnMetadata)
}.

Definition empty_registry : Registry :=
  {| tableMetadata := ∅; columnMetadata := ∅ |}.

(** [a || b] where [a] is a string or [undefined]: the empty string and
    [undefined] are the falsy ones. *)
Definition or_string (a : option string) (b : string) : string :=
  match a with
  | Some s => if decide (s = "") then b else s
  | None => b
  end.

(** [Table(tableName)(constructor)] *)
Definition Table (tableName : option string) (constructor : Class) (reg : Registry) : Registry :=
  {| tableMetadata :=
       <[class_id constructor :=
           or_string (Str.toLowerCase <$> tableName)
                     (Str.toLowerCase (class_name constructor))]>
         (tableMetadata reg);
     columnMetadata := columnMetadata reg |}.

(** [Column(options)(target, propertyKey)].  [design] is
    [typeof Reflect.getMetadata('design:type', target, propertyKey)?.()]. *)
Definition Column (name : option string) (ty : option SqlType) (design : TypeofReturnValue)
    (target : Class) (propertyKey : string) (reg : Registry) : Registry :=
  let columnName := or_string name (Str.toLowerCase propertyKey) in
  let type := match ty with Some t => t | None => sqlTypes design end in
  let columns := default [] (columnMetadata reg !! class_id target) in
  {| tableMetadata := tableMetadata reg;
     columnMetadata :=
       <[class_id target :=
           columns ++ [ {| column := propertyKey; columnName := columnName; type := type |} ]]>
         (columnMetadata reg) |}.

(** ** The driver's [Table], and what reaches the driver *)

Record MsColumn : Type := {
  col_name : string;
  col_type : SqlType;
  col_nullable : bool
}.

(** [Table] of the [mssql] package, as far as the file uses it: the name it
    was built from, the [create] flag, [columns] and [rows]. *)
Record MsTable : Type := {
  tbl_name : option string;
  tbl_create : bool;
  tbl_columns : list MsColumn;
  tbl_rows : list (list jsval)
}.

(** [new _Table(name)] *)
Definition new_Table (name : option string) : MsTable :=
  {| tbl_name := name; tbl_create := false; tbl_columns := []; tbl_rows := [] |}.

Definition set_create (b : bool) (t : MsTable) : MsTable :=
  {| tbl_name := tbl_name t; tbl_create := b;
     tbl_columns := tbl_columns t; tbl_rows := tbl_rows t |}.

(** [table.columns.add(name, type, { nullable })] *)
Definition columns_add (name : string) (ty : SqlType) (nullable : bool) (t : MsTable) : MsTable :=
  {| tbl_name := tbl_name t; tbl_create := tbl_create t;
     tbl_columns := tbl_columns t ++ [ {| col_name := name; col_type := ty; col_nullable := nullable |} ];
     tbl_rows := tbl_rows t |}.

(** [table.rows.add(...values)]: the driver pushes the arguments as one
    row at the end of [rows]. *)
Definition rows_add (values : list jsval) (t : MsTable) : MsTable :=
  {| tbl_name := tbl_name t; tbl_create := tbl_create t;
     tbl_columns := tbl_columns t;
     tbl_rows := tbl_rows t ++ [values] |}.

Record Config : Type := {
  cfg_server : string;
  cfg_database : string
}.

Record ConnectionPool : Type := {
  pool_config : Config
}.

Record IBulkResult : Type := {
  rowsAffected : nat
}.

(** Everything the file asks of the pool and of its requests, in the
    order it asks. *)
Inductive Event : Type :=
  | EvConnect (c : Config)
  | EvRequest (r : nat)
  | EvPreparedStatement
  | EvInput (r : nat) (name : string) (ty : SqlType) (value : option string)
  | EvQuery (r : nat) (sql : string)
  | EvBulk (r : nat) (t : MsTable)
  | EvClose.

(** The answers of the driver and of the server behind it; the file
    passes them through. *)
Record Driver : Type := {
  connect_answer : Config -> Settled ConnectionPool;
  query_answer : string -> Settled unit;
  bulk_answer : MsTable -> Settled IBulkResult;
  close_answer : Settled unit
}.

(** The process state outside the handles: the static [_MssqlTable.pool],
    the [connect()] promises not settled yet, what [console.error]
    printed, the events so far and the number of requests handed out. *)
Record World : Type := {
  driver : Driver;
  pool : option ConnectionPool;
  connecting : list Config;
  console : list (string * JsError);
  events : list Event;
  requests : nat
}.

Definition set_pool (p : option ConnectionPool) (w : World) : World :=
  {| driver := driver w; pool := p; connecting := connecting w;
     console := console w; events := events w; requests := requests w |}.

Definition set_connecting (cs : list Config) (w : World) : World :=
  {| driver := driver w; pool := pool w; connecting := cs;
     console := console w; events := events w; requests := requests w |}.

Definition console_error (msg : string) (err : JsError) (w : World) : World :=
  {| driver := driver w; pool := pool w; connecting := connecting w;
     console := console w ++ [(msg, err)]; events := events w; requests := requests w |}.

Definition emit (e : Event) (w : World) : World :=
  {| driver := driver w; pool := pool w; connecting := connecting w;
     console := console w; events := events w ++ [e]; requests := requests w |}.

Definition fresh_request (w : World) : World :=
  {| driver := driver w; pool := pool w; connecting := connecting w;
     console := console w; events := events w; requests := S (requests w) |}.

(** ** The behaviour class [_MssqlTable] *)

(** The constructor's argument: the [mssqlExtends] marker, another symbol,
    nothing, or an options object whose [config] may be missing. *)
Inductive Options : Type :=
  | OptExtends
  | OptSymbol
  | OptUndefined
  | OptObject (config : option Config).

Definition is_extends (o : Options) : bool :=
  match o with OptExtends => true | _ => false end.

Definition typeof_symbol (o : Options) : bool :=
  match o with OptExtends | OptSymbol => true | _ => false end.

(** [options?.config] *)
Definition options_config (o : Options) : option Config :=
  match o with OptObject c => c | _ => None end.

(** [new _MssqlTable(options)].  [connect()] is started and the
    constructor returns; the promise settles in [settle_connect]. *)
Definition new_MssqlTable (options : Options) (w : World) : Completion unit * World :=
  if negb (bool_decide (is_Some (pool w))) && negb (is_extends options) && negb (typeof_symbol options)
  then match options_config options with
       | None => (Thrown config_required, w)
       | Some cfg =>
           (Returned tt, set_connecting (connecting w ++ [cfg]) (emit (EvConnect cfg) w))
       end
  else (Returned tt, w).

(** The oldest [connect()] promise settles: [.then] stores the pool,
    [.catch] prints the error. *)
Definition settle_connect (w : World) : World :=
  match connecting w with
  | [] => w
  | cfg :: rest =>
      match connect_answer (driver w) cfg with
      | Resolved p => set_pool (Some p) (set_connecting rest w)
      | Rejected err =>
          console_error "Error creating connection pool" err (set_connecting rest w)
      end
  end.

(** [onApplicationShutdown()]: [await _MssqlTable.pool?.close()] *)
Definition onApplicationShutdown (w : World) : Settled unit * World :=
  match pool w with
  | None => (Resolved tt, w)
  | Some _ => (close_answer (driver w), emit EvClose w)
  end.

(** [preparedStatement()] *)
Definition preparedStatement (w : World) : Completion unit * World :=
  match pool w with
  | None => (Thrown pool_not_initialized, w)
  | Some _ => (Returned tt, emit EvPreparedStatement w)
  end.

(** [request()]: the number of the request opened on the pool. *)
Definition request (w : World) : Completion nat * World :=
  match pool w with
  | None => (Thrown pool_not_initialized, w)
  | Some _ => (Returned (requests w), fresh_request (emit (EvRequest (requests w)) w))
  end.

(** [request.input(name, type, value)] and [await request.query(sql)] *)
Definition input (r : nat) (name : string) (ty : SqlType) (value : option string) (w : World) : World :=
  emit (EvInput r name ty value) w.

Definition query (r : nat) (sql : string) (w : World) : Settled unit * World :=
  (query_answer (driver w) sql, emit (EvQuery r sql) w).

(** [request.bulk(table)]: the driver reads the table, rows included,
    sends it, and leaves the object as it found it. *)
Definition bulk (r : nat) (t : MsTable) (w : World) : Settled IBulkResult * MsTable * World :=
  (bulk_answer (driver w) t, t, emit (EvBulk r t) w).

(** [db.useDb(name)] *)
Definition useDb (name : string) (w : World) : Settled unit * World :=
  if Str.forbiddenChars_test name
  then (Rejected (invalid_database_name name), w)
  else match request w with
       | (Thrown e, w1) => (Rejected e, w1)
       | (Returned r, w1) => query r ("USE " +:+ Str.escape name) w1
       end.

(** ** Handles *)

(** The members of [_MssqlTable.prototype]. *)
Inductive Member : Type :=
  | MConstructor
  | MOnApplicationShutdown
  | MPreparedStatement
  | MRequest
  | MDb
  | MTable
  | MInsert.

(** An own property of a handle: a data field of the entity, a method, or
    an accessor ([get db], [get table]). *)
Inductive Property : Type :=
  | DataProperty (v : jsval)
  | MethodProperty (m : Member)
  | AccessorProperty (m : Member).

(** A table handle: the string-keyed own properties of the entity
    instance and the two symbol-keyed slots. *)
Record TableHandle : Type := {
  props : gmap string Property;
  innerTable : MsTable;
  innerColumns : list string
}.

Definition set_innerTable (t : MsTable) (h : TableHandle) : TableHandle :=
  {| props := props h; innerTable := t; innerColumns := innerColumns h |}.

(** A row is an object of the entity's shape, read through its own data
    properties; [row[column]] of a property it does not have is
    [undefined]. *)
Definition row_get (row : gmap string jsval) (column : string) : jsval :=
  default VUndefined (row !! column).

(** The argument of [insert], of type [T | T[]]: nothing ([undefined] or
    [null]), one row, or an array of rows. *)
Inductive RowsArg : Type :=
  | NoRows
  | OneRow (row : gmap string jsval)
  | ManyRows (rows : list (gmap string jsval)).

(** [[rows].flat()] *)
Definition flat (rows : RowsArg) : list (gmap string jsval) :=
  match rows with
  | NoRows => []
  | OneRow row => [row]
  | ManyRows rs => rs
  end.

Definition is_empty {A : Type} (l : list A) : bool :=
  match l with [] => true | _ => false end.

(** The guard of [insert]:
    [!rows || (Array.isArray(rows) && !rows?.length) || !this[innerColumns]?.length] *)
Definition nothing_to_insert (rows : RowsArg) (this : TableHandle) : bool :=
  match rows with
  | NoRows => true
  | OneRow _ => false
  | ManyRows rs => is_empty rs
  end
  || is_empty (innerColumns this).

(** The values of one row, [this[innerColumns].map((column) => row[column])]. *)
Definition row_values (columns : list string) (row : gmap string jsval) : list jsval :=
  row_get row <$> columns.

(** The [for (const row of irows)] loop of [insert]. *)
Definition buffer_rows (columns : list string) (irows : list (gmap string jsval)) (t : MsTable) : MsTable :=
  fold_left (fun t row => rows_add (row_values columns row) t) irows t.

(** The object [insert] returns: [exec] closes over the request. *)
Record MssqlResult : Type := {
  exec_request : nat
}.

(** [insert(rows)]: [None] stands for the bare [return]. *)
Definition insert (rows : RowsArg) (this : TableHandle) (w : World)
    : Completion (option MssqlResult) * TableHandle * World :=
  if nothing_to_insert rows this then (Returned None, this, w)
  else
    let this1 := set_innerTable (buffer_rows (innerColumns this) (flat rows) (innerTable this)) this in
    match request w with
    | (Thrown e, w1) => (Thrown e, this1, w1)
    | (Returned r, w1) => (Returned (Some {| exec_request := r |}), this1, w1)
    end.

(** [exec()] of a result of [insert]: [request.bulk(this[innerTable])],
    with the table the handle holds when [exec] runs. *)
Definition exec (res : MssqlResult) (this : TableHandle) (w : World)
    : Settled IBulkResult * TableHandle * World :=
  let '(answer, t, w1) := bulk (exec_request res) (innerTable this) w in
  (answer, set_innerTable t this, w1).

(** [handle.insert(rows).exec()] as one expression: a throw of [insert],
    or of reading [exec] off [undefined], else the promise of [exec]. *)
Definition insert_exec (rows : RowsArg) (this : TableHandle) (w : World)
    : Completion (Settled IBulkResult) * TableHandle * World :=
  match insert rows this w with
  | (Thrown e, this1, w1) => (Thrown e, this1, w1)
  | (Returned None, this1, w1) =>
      (Thrown (TypeError "Cannot read properties of undefined (reading 'exec')"), this1, w1)
  | (Returned (Some res), this1, w1) =>
      let '(answer, this2, w2) := exec res this1 w1 in
      (Returned answer, this2, w2)
  end.

Definition drop_query : string :=
  "DECLARE @sql NVARCHAR(MAX); SET @sql = 'DROP TABLE ' + QUOTENAME(@name); EXEC sp_executesql @sql;".

(** [table.drop()] *)
Definition drop (this : TableHandle) (w : World) : Settled unit * World :=
  match request w with
  | (Thrown e, w1) => (Rejected e, w1)
  | (Returned r, w1) =>
      query r drop_query (input r "name" (SqlNVarChar 128) (tbl_name (innerTable this)) w1)
  end.

(** ** [TableFactory.createForClass] *)

(** [Object.getOwnPropertyDescriptors(Object.getPrototypeOf(mssqlTable))] *)
Definition prototype_descriptors : gmap string Property :=
  list_to_map
    [ ("constructor", MethodProperty MConstructor);
      ("onApplicationShutdown", MethodProperty MOnApplicationShutdown);
      ("preparedStatement", MethodProperty MPreparedStatement);
      ("request", MethodProperty MRequest);
      ("db", AccessorProperty MDb);
      ("table", AccessorProperty MTable);
      ("insert", MethodProperty MInsert) ].

(** [Object.defineProperties(obj, descriptors)]: a descriptor replaces an
    own property of the same key. *)
Definition defineProperties (descriptors obj : gmap string Property) : gmap string Property :=
  descriptors ∪ obj.

(** The [for (const column of columns)] loop of [createForClass]. *)
Definition add_columns (columns : list ColumnMetadata) (t : MsTable) : MsTable :=
  fold_left (fun t c => columns_add (columnName c) (type c) true t) columns t.

(** [createForClass(table)].  Iterating [columns] when the class has no
    column metadata is iterating [undefined]. *)
Definition createForClass (table : Class) (reg : Registry) (w : World)
    : Completion TableHandle * World :=
  match new_MssqlTable OptExtends w with
  | (Thrown e, w1) => (Thrown e, w1)
  | (Returned _, w1) =>
      let iTable := DataProperty <$> class_fields table in
      let tableName := tableMetadata reg !! class_id table in
      let columns := columnMetadata reg !! class_id table in
      let icolumns := default [] (map column <$> columns) in
      let itable := set_create true (new_Table tableName) in
      match columns with
      | None => (Thrown (TypeError "columns is not iterable"), w1)
      | Some cs =>
          let descriptors := delete "constructor" prototype_descriptors in
          (Returned {| props := defineProperties descriptors iTable;
                       innerTable := add_columns cs itable;
                       innerColumns := icolumns |}, w1)
      end
  end.

(** ** Sample data *)

(** [@Table() class Order { @Column() id; @Column() total; @Column() note }] *)
Definition Order : Class :=
  {| class_id := 1%positive; class_name := "Order"; class_fields := ∅ |}.

(** [@Table() class Bare {}], a class without any [@Column]. *)
Definition Bare : Class :=
  {| class_id := 2%positive; class_name := "Bare"; class_fields := ∅ |}.

Definition sample_registry : Registry :=
  Table None Bare
    (Table None Order
       (Column None None TyString Order "note"
          (Column None None TyNumber Order "total"
             (Column None None TyNumber Order "id" empty_registry)))).

Definition sample_config : Config :=
  {| cfg_server := "localhost"; cfg_database := "sales_db" |}.

(** A server that accepts everything and reports the rows it was sent. *)
Definition ok_driver : Driver :=
  {| connect_answer := fun cfg => Resolved {| pool_config := cfg |};
     query_answer := fun _ => Resolved tt;
     bulk_answer := fun t => Resolved {| rowsAffected := length (tbl_rows t) |};
     close_answer := Resolved tt |}.

(** A server that cannot be reached. *)
Definition down_driver : Driver :=
  {| connect_answer := fun _ => Rejected (DriverError "ESOCKET");
     query_answer := fun _ => Rejected (DriverError "ECONNCLOSED");
     bulk_answer := fun _ => Rejected (DriverError "ECONNCLOSED");
     close_answer := Resolved tt |}.

(** The process at start: no pool, nothing printed, nothing sent. *)
Definition boot (d : Driver) : World :=
  {| driver := d; pool := None; connecting := []; console := [];
     events := []; requests := 0 |}.

(** The process once the first configured construction has connected. *)
Definition online : World :=
  settle_connect (snd (new_MssqlTable (OptObject (Some sample_config)) (boot ok_driver))).

Definition order_handle : TableHandle :=
  {| props := delete "constructor" prototype_descriptors;
     innerTable :=
       add_columns (default [] (columnMetadata sample_registry !! class_id Order))
         (set_create true (new_Table (Some "order")));
     innerColumns := ["id"; "total"; "note"] |}.

Definition order_1 : gmap string jsval :=
  {[ "id" := VNum 1; "total" := VNum 250; "note" := VStr "first" ]}.

Definition order_2 : gmap string jsval :=
  {[ "id" := VNum 2; "total" := VNum 75 ]}.

(** ** Vocabulary of the statements *)

(** The rows an [insert] contributes to the buffer. *)
Definition extracted (this : TableHandle) (rows : RowsArg) : list (list jsval) :=
  row_values (innerColumns this) <$> flat rows.

(** The buffer read value by value. *)
Definition buffered_values (this : TableHandle) : list jsval :=
  concat (tbl_rows (innerTable this)).

(** The table name as the specification words it: the supplied name as
    given, else the lower-cased class name. *)
Definition spec_table_name (name : option string) (c : Class) : string :=
  match name with
  | Some n => n
  | None => Str.toLowerCase (class_name c)
  end.

(** The units of a string, to speak about the characters of a name. *)
Definition units (s : string) : list ascii := list_ascii_of_string s.

(** Letters, digits and the underscore, spelled out. *)
Definition allow_list : string :=
  "abcdefghijklmnopqrstuvwxyzABCDEFGHIJKLMNOPQRSTUVWXYZ0123456789_".

(** The SQL texts among a sequence of events. *)
Definition statements (es : list Event) : list string :=
  omap (λ e, match e with EvQuery _ sql => Some sql | _ => None end) es.

(** The requests opened on the pool among a sequence of events. *)
Definition opened (es : list Event) : list nat :=
  omap (λ e, match e with EvRequest r => Some r | _ => None end) es.

(** The tables sent by bulk copy among a sequence of events. *)
Definition bulk_copies (es : list Event) : list MsTable :=
  omap (λ e, match e with EvBulk _ t => Some t | _ => None end) es.

(** The handle and the world an operation on a handle leaves behind. *)
Definition handle_after {A : Type} (r : A * TableHandle * World) : TableHandle := snd (fst r).
Definition world_after {A : Type} (r : A * TableHandle * World) : World := snd r.
Definition result_of {A : Type} (r : A * TableHandle * World) : A := fst (fst r).

(** The specification's words on deferral: the insert call leaves the
    pool alone, and running [exec] is what opens the request. *)
Definition spec_insert_is_local (rows : RowsArg) (this : TableHandle) (w : World) : Prop :=
  events (world_after (insert rows this w)) = events w
  ∧ ∀ res, result_of (insert rows this w) = Returned (Some res) →
      opened (events (world_after
                (exec res (handle_after (insert rows this w)) (world_after (insert rows this w)))))
      = opened (events w) ++ [exec_request res].

(** The specification's words on the flush: once [exec] is through, the
    buffer is empty. *)
Definition spec_exec_empties_buffer (res : MssqlResult) (this : TableHandle) (w : World) : Prop :=
  tbl_rows (innerTable (handle_after (exec res this w))) = [].

(** Two flushes in a row on the sample handle. *)
Definition first_flush : Completion (Settled IBulkResult) * TableHandle * World :=
  insert_exec (OneRow order_1) order_handle online.

Definition second_flush : Completion (Settled IBulkResult) * TableHandle * World :=
  insert_exec (OneRow order_2) (handle_after first_flush) (world_after first_flush).

(** The specification's words on construction: the constructing caller
    never sees a throw. *)
Definition spec_construction_never_throws (options : Options) (w : World) : Prop :=
  fst (new_MssqlTable options w) = Returned tt.

(** ** Declarations in sequence, registries the decorators can build *)




(** The registries reachable from the empty one by [Table] and [Column],
    the only two writers of the metadata. *)
Inductive Declared : Registry → Prop :=
  | Declared_empty : Declared empty_registry
  | Declared_Table (name : option string) (c : Class) (reg : Registry) :
      Declared reg → Declared (Table name c reg)
  | Declared_Column (name : option string) (ty : option SqlType) (design : TypeofReturnValue)
      (target : Class) (propertyKey : string) (reg : Registry) :
      Declared reg → Declared (Column name ty design target propertyKey reg).


(** ** Injection tokens: [getMssqlTable], [InjectTable], [forFeature] *)

Module Wide.





End Wide.







(** * Properties *)

(** ** The row buffer *)

Lemma buffer_rows_rows (columns : list string) (irows : list (gmap string jsval)) (t : MsTable) :
  tbl_rows (buffer_rows columns irows t) = tbl_rows t ++ (row_values columns <$> irows).
Proof.
  revert t. induction irows as [|row irows IH]; intros t; simpl.
  - by rewrite app_nil_r.
  - rewrite IH. simpl. by rewrite <- app_assoc.
Qed.

(** The loop of [insert] touches the rows only. *)
Lemma buffer_rows_frame (columns : list string) (irows : list (gmap string jsval)) (t : MsTable) :
  tbl_name (buffer_rows columns irows t) = tbl_name t
  ∧ tbl_create (buffer_rows columns irows t) = tbl_create t
  ∧ tbl_columns (buffer_rows columns irows t) = tbl_columns t.
Proof.
  revert t. induction irows as [|row irows IH]; intros t; simpl; [done|].
  destruct (IH (rows_add (row_values columns row) t)) as (-> & -> & ->). done.
Qed.

Lemma row_values_length (columns : list string) (row : gmap string jsval) :
  length (row_values columns row) = length columns.
Proof. unfold row_values. apply length_fmap. Qed.

Lemma row_values_lookup (columns : list string) (row : gmap string jsval) (i : nat) (c : string) :
  columns !! i = Some c → row_values columns row !! i = Some (row_get row c).
Proof. intros Hc. unfold row_values. by apply list_lookup_fmap_Some_2. Qed.

Lemma concat_rows_length (columns : list string) (irows : list (gmap string jsval)) :
  length (concat (row_values columns <$> irows)) = length irows * length columns.
Proof.
  induction irows as [|row irows IH]; [done|].
  rewrite fmap_cons, concat_cons, length_app, row_values_length, IH.
  reflexivity.
Qed.

Lemma nothing_to_insert_false (rows : RowsArg) (this : TableHandle) :
  nothing_to_insert rows this = false ↔ flat rows ≠ [] ∧ innerColumns this ≠ [].
Proof.
  unfold nothing_to_insert.
  destruct rows as [|row|[|r rs]]; destruct (innerColumns this); simpl;
    (split; [ try discriminate; intros _; split; discriminate
            | intros [? ?]; congruence ]).
Qed.

(** On a handle without columns, or with nothing to insert, [insert]
    returns nothing and leaves handle and world alone. *)
Lemma insert_nothing (rows : RowsArg) (this : TableHandle) (w : World) :
  flat rows = [] ∨ innerColumns this = [] →
  insert rows this w = (Returned None, this, w).
Proof.
  intros H. unfold insert.
  destruct (nothing_to_insert rows this) eqn:Hgo; [done|].
  apply nothing_to_insert_false in Hgo as [Hrows Hcols]. by destruct H.
Qed.

(** Whatever the pool, an [insert] that has something to insert leaves
    the handle with the extracted rows behind the old ones. *)
Lemma insert_handle (rows : RowsArg) (this : TableHandle) (w : World) :
  nothing_to_insert rows this = false →
  handle_after (insert rows this w)
  = set_innerTable (buffer_rows (innerColumns this) (flat rows) (innerTable this)) this.
Proof.
  intros H. unfold insert. rewrite H.
  unfold request. destruct (pool w); reflexivity.
Qed.

Lemma insert_rows (rows : RowsArg) (this : TableHandle) (w : World) :
  nothing_to_insert rows this = false →
  tbl_rows (innerTable (handle_after (insert rows this w)))
  = tbl_rows (innerTable this) ++ extracted this rows
  ∧ innerColumns (handle_after (insert rows this w)) = innerColumns this.
Proof.
  intros H. rewrite insert_handle by done. simpl.
  split; [apply buffer_rows_rows | done].
Qed.

(** C1: on a handle with declared columns, an insert of a row or of a
    non-empty sequence of rows appends, per row, one value for each
    declared column, in the declared order; a second insert appends behind
    the first, so that after calls contributing m and n values the buffer
    has grown by m+n and nothing buffered before was overwritten. *)
Theorem insert_appends_in_column_order
    (rows1 rows2 : RowsArg) (this : TableHandle) (w : World) :
  innerColumns this ≠ [] → flat rows1 ≠ [] → flat rows2 ≠ [] →
  let r1 := insert rows1 this w in
  let r2 := insert rows2 (handle_after r1) (world_after r1) in
  let m := length (flat rows1) * length (innerColumns this) in
  let n := length (flat rows2) * length (innerColumns this) in
  tbl_rows (innerTable (handle_after r1))
    = tbl_rows (innerTable this) ++ extracted this rows1
  ∧ length (extracted this rows1) = length (flat rows1)
  ∧ (∀ (k : nat) (row : gmap string jsval), flat rows1 !! k = Some row →
       ∃ values, extracted this rows1 !! k = Some values
         ∧ length values = length (innerColumns this)
         ∧ ∀ (i : nat) (c : string), innerColumns this !! i = Some c →
             values !! i = Some (row_get row c))
  ∧ buffered_values (handle_after r1)
    = buffered_values this ++ concat (extracted this rows1)
  ∧ length (concat (extracted this rows1)) = m
  ∧ length (concat (extracted this rows2)) = n
  ∧ buffered_values (handle_after r2)
    = buffered_values this ++ concat (extracted this rows1) ++ concat (extracted this rows2)
  ∧ length (buffered_values (handle_after r2)) = length (buffered_values this) + m + n.
Proof.
  intros Hcols Hrows1 Hrows2 r1 r2 m n.
  assert (H1 : nothing_to_insert rows1 this = false)
    by (apply nothing_to_insert_false; done).
  destruct (insert_rows rows1 this w H1) as [Hbuf1 Hcols1].
  fold r1 in Hbuf1, Hcols1.
  assert (H2 : nothing_to_insert rows2 (handle_after r1) = false)
    by (apply nothing_to_insert_false; rewrite Hcols1; done).
  destruct (insert_rows rows2 (handle_after r1) (world_after r1) H2) as [Hbuf2 _].
  fold r2 in Hbuf2.
  assert (Hext : extracted (handle_after r1) rows2 = extracted this rows2)
    by (unfold extracted; rewrite Hcols1; done).
  rewrite Hext in Hbuf2.
  assert (Hm : length (concat (extracted this rows1)) = m)
    by apply concat_rows_length.
  assert (Hn : length (concat (extracted this rows2)) = n)
    by apply concat_rows_length.
  repeat split.
  - exact Hbuf1.
  - unfold extracted. apply length_fmap.
  - intros k row Hk. exists (row_values (innerColumns this) row). repeat split.
    + unfold extracted. by apply list_lookup_fmap_Some_2.
    + apply row_values_length.
    + intros i c Hi. by apply row_values_lookup.
  - unfold buffered_values. rewrite Hbuf1. apply concat_app.
  - exact Hm.
  - exact Hn.
  - unfold buffered_values. rewrite Hbuf2, Hbuf1, !concat_app. by rewrite <- app_assoc.
  - unfold buffered_values. rewrite Hbuf2, Hbuf1, !concat_app, !length_app, Hm, Hn. lia.
Qed.

Lemma insert_appends_in_column_order_witness :
  tbl_rows (innerTable (handle_after
     (insert (OneRow order_2) (handle_after (insert (ManyRows [order_1; order_2]) order_handle online))
        (world_after (insert (ManyRows [order_1; order_2]) order_handle online)))))
  = [ [VNum 1; VNum 250; VStr "first"]; [VNum 2; VNum 75; VUndefined];
      [VNum 2; VNum 75; VUndefined] ]
  ∧ length (buffered_values (handle_after
     (insert (OneRow order_2) (handle_after (insert (ManyRows [order_1; order_2]) order_handle online))
        (world_after (insert (ManyRows [order_1; order_2]) order_handle online)))))
    = length (buffered_values order_handle) + 2 * 3 + 1 * 3.
Proof.
  pose proof (insert_appends_in_column_order
                (ManyRows [order_1; order_2]) (OneRow order_2) order_handle online
                ltac:(discriminate) ltac:(discriminate) ltac:(discriminate)) as H.
  cbv zeta in H. destruct H as (_ & _ & _ & _ & _ & _ & _ & Hlen).
  split; [vm_compute; reflexivity | exact Hlen].
Defined.

(** ** Database names *)

Lemma is_word_allow_list (c : ascii) :
  Str.is_word c = bool_decide (c ∈ units allow_list).
Proof. destruct c as [[] [] [] [] [] [] [] []]; vm_compute; reflexivity. Qed.

Lemma forbiddenChars_test_true (s : string) :
  Str.forbiddenChars_test s = true ↔ ∃ c, c ∈ units s ∧ c ∉ units allow_list.
Proof.
  induction s as [|a s IH]; simpl.
  - split; [discriminate|]. intros (c & Hc & _). by apply elem_of_nil in Hc.
  - rewrite orb_true_iff, IH, negb_true_iff, is_word_allow_list, bool_decide_eq_false.
    split.
    + intros [Ha | (c & Hc & Hout)].
      * exists a. split; [apply list_elem_of_here | exact Ha].
      * exists c. split; [by apply list_elem_of_further | exact Hout].
    + intros (c & Hc & Hout). apply elem_of_cons in Hc as [-> | Hc].
      * by left.
      * right. by exists c.
Qed.

Lemma forbiddenChars_test_false (s : string) :
  Str.forbiddenChars_test s = false ↔ ∀ c, c ∈ units s → c ∈ units allow_list.
Proof.
  rewrite <- not_true_iff_false, forbiddenChars_test_true. split.
  - intros Hno c Hc. destruct (decide (c ∈ units allow_list)) as [|Hout]; [done|].
    exfalso. apply Hno. by exists c.
  - intros Hall (c & Hc & Hout). apply Hout. by apply Hall.
Qed.

(** [escape] leaves a name of the allow-list as it is. *)
Lemma escape_allowed (s : string) :
  Str.forbiddenChars_test s = false → Str.escape s = s.
Proof.
  induction s as [|a s IH]; simpl; [done|].
  intros H. apply orb_false_iff in H as [Ha Hs]. apply negb_false_iff in Ha.
  unfold Str.escape_unit, Str.no_escape. rewrite Ha. simpl. by rewrite IH.
Qed.

(** ** Operations without a pool *)

Section WithoutPool.

Context (w : World) (Hpool : pool w = None).

Lemma request_without_pool : request w = (Thrown pool_not_initialized, w).
Proof. unfold request. by rewrite Hpool. Qed.

(** C10: without a pool, an insert that has something to insert throws
    the pool error after it has buffered: the values of every supplied row
    stay in the handle's buffer, behind what was there. *)
Theorem insert_without_pool_keeps_rows (rows : RowsArg) (this : TableHandle) :
  innerColumns this ≠ [] → flat rows ≠ [] →
  result_of (insert rows this w) = Thrown pool_not_initialized
  ∧ world_after (insert rows this w) = w
  ∧ tbl_rows (innerTable (handle_after (insert rows this w)))
    = tbl_rows (innerTable this) ++ extracted this rows
  ∧ length (tbl_rows (innerTable this))
    < length (tbl_rows (innerTable (handle_after (insert rows this w))))
  ∧ ∀ row, row ∈ flat rows →
      row_values (innerColumns this) row
      ∈ tbl_rows (innerTable (handle_after (insert rows this w))).
Proof.
  intros Hcols Hrows.
  assert (Hgo : nothing_to_insert rows this = false)
    by (apply nothing_to_insert_false; done).
  destruct (insert_rows rows this w Hgo) as [Hbuf _].
  split; [|split; [|split; [exact Hbuf|split]]].
  - unfold insert. rewrite Hgo, request_without_pool. reflexivity.
  - unfold insert. rewrite Hgo, request_without_pool. reflexivity.
  - rewrite Hbuf, length_app. unfold extracted. rewrite length_fmap.
    destruct (flat rows); [done | simpl; lia].
  - intros row Hin. rewrite Hbuf. apply elem_of_app. right.
    unfold extracted. apply list_elem_of_fmap. by exists row.
Qed.

(** C2: with no pool, dropping the table, switching the database to a
    name of the allow-list and [insert(rows).exec()] with something to
    insert all fail with the pool error and send nothing; and no
    [insert(rows).exec()] whatever comes to a result. *)
Theorem operations_fail_without_pool (this : TableHandle) :
  drop this w = (Rejected pool_not_initialized, w)
  ∧ (∀ name, (∀ c, c ∈ units name → c ∈ units allow_list) →
       useDb name w = (Rejected pool_not_initialized, w))
  ∧ (∀ rows, flat rows ≠ [] → innerColumns this ≠ [] →
       result_of (insert_exec rows this w) = Thrown pool_not_initialized
       ∧ world_after (insert_exec rows this w) = w)
  ∧ (∀ rows answer, result_of (insert_exec rows this w) ≠ Returned (Resolved answer)).
Proof.
  split; [|split; [|split]].
  - unfold drop. by rewrite request_without_pool.
  - intros name Hname. apply forbiddenChars_test_false in Hname.
    unfold useDb. by rewrite Hname, request_without_pool.
  - intros rows Hrows Hcols. unfold insert_exec, insert.
    rewrite (proj2 (nothing_to_insert_false rows this) (conj Hrows Hcols)).
    by rewrite request_without_pool.
  - intros rows answer. unfold insert_exec, insert.
    destruct (nothing_to_insert rows this); [done|].
    by rewrite request_without_pool.
Qed.

End WithoutPool.

Lemma insert_without_pool_keeps_rows_witness :
  result_of (insert (OneRow order_1) order_handle (boot ok_driver)) = Thrown pool_not_initialized
  ∧ tbl_rows (innerTable (handle_after (insert (OneRow order_1) order_handle (boot ok_driver))))
    = [ [VNum 1; VNum 250; VStr "first"] ].
Proof.
  destruct (insert_without_pool_keeps_rows (boot ok_driver) ltac:(reflexivity)
              (OneRow order_1) order_handle ltac:(discriminate) ltac:(discriminate))
    as (Hres & _ & Hbuf & _).
  split; [exact Hres | rewrite Hbuf; vm_compute; reflexivity].
Defined.

Lemma operations_fail_without_pool_witness :
  drop order_handle (boot ok_driver) = (Rejected pool_not_initialized, boot ok_driver)
  ∧ useDb "sales_db" (boot ok_driver) = (Rejected pool_not_initialized, boot ok_driver)
  ∧ result_of (insert_exec (OneRow order_1) order_handle (boot ok_driver))
    = Thrown pool_not_initialized.
Proof.
  destruct (operations_fail_without_pool (boot ok_driver) ltac:(reflexivity) order_handle)
    as (Hdrop & Huse & Hins & _).
  split; [exact Hdrop|]. split.
  - apply Huse. apply forbiddenChars_test_false. vm_compute. reflexivity.
  - apply (Hins (OneRow order_1)); discriminate.
Defined.

(** Shutting down when no pool was ever opened does nothing. *)
Lemma shutdown_without_pool (w : World) :
  pool w = None → onApplicationShutdown w = (Resolved tt, w).
Proof. intros H. unfold onApplicationShutdown. by rewrite H. Qed.

(** ** Insert and exec with a pool *)

Lemma exec_events (res : MssqlResult) (this : TableHandle) (w : World) :
  exec res this w
  = (bulk_answer (driver w) (innerTable this), this,
     emit (EvBulk (exec_request res) (innerTable this)) w).
Proof. unfold exec, bulk. by destruct this. Qed.

Section WithPool.

Context (w : World) (p : ConnectionPool) (Hpool : pool w = Some p).

Lemma request_with_pool :
  request w = (Returned (requests w), fresh_request (emit (EvRequest (requests w)) w)).
Proof. unfold request. by rewrite Hpool. Qed.

Lemma insert_with_pool (rows : RowsArg) (this : TableHandle) :
  nothing_to_insert rows this = false →
  insert rows this w
  = (Returned (Some {| exec_request := requests w |}),
     set_innerTable (buffer_rows (innerColumns this) (flat rows) (innerTable this)) this,
     fresh_request (emit (EvRequest (requests w)) w)).
Proof.
  intros Hgo. unfold insert. by rewrite Hgo, request_with_pool.
Qed.

Lemma insert_exec_with_pool (rows : RowsArg) (this : TableHandle) :
  nothing_to_insert rows this = false →
  let t := buffer_rows (innerColumns this) (flat rows) (innerTable this) in
  insert_exec rows this w
  = (Returned (bulk_answer (driver w) t),
     set_innerTable t this,
     emit (EvBulk (requests w) t) (fresh_request (emit (EvRequest (requests w)) w))).
Proof.
  intros Hgo t. unfold insert_exec.
  rewrite (insert_with_pool rows this Hgo). reflexivity.
Qed.

(** C4, as the code has it: with a pool, an insert that has something to
    insert buffers and opens the request on the pool within the call:
    the request is the one event of the call, and the returned object
    holds it.  Running [exec], at any later state, opens no request and
    sends the one bulk copy of the handle's table on that request. *)
Theorem insert_opens_request_exec_sends (rows : RowsArg) (this : TableHandle) :
  innerColumns this ≠ [] → flat rows ≠ [] →
  result_of (insert rows this w) = Returned (Some {| exec_request := requests w |})
  ∧ events (world_after (insert rows this w)) = events w ++ [EvRequest (requests w)]
  ∧ bulk_copies (events (world_after (insert rows this w))) = bulk_copies (events w)
  ∧ ∀ res this' w',
      events (world_after (exec res this' w'))
        = events w' ++ [EvBulk (exec_request res) (innerTable this')]
      ∧ opened (events (world_after (exec res this' w'))) = opened (events w').
Proof.
  intros Hcols Hrows.
  assert (Hgo : nothing_to_insert rows this = false)
    by (apply nothing_to_insert_false; done).
  rewrite (insert_with_pool rows this Hgo).
  split; [done|]. split; [done|]. split.
  - unfold bulk_copies. simpl. rewrite omap_app. simpl. by rewrite app_nil_r.
  - intros res this' w'. rewrite exec_events. simpl. split; [done|].
    unfold opened. rewrite omap_app. simpl. by rewrite app_nil_r.
Qed.

End WithPool.

Lemma insert_opens_request_exec_sends_witness :
  result_of (insert (OneRow order_1) order_handle online)
    = Returned (Some {| exec_request := 0 |})
  ∧ events (world_after (insert (OneRow order_1) order_handle online))
    = events online ++ [EvRequest 0].
Proof.
  destruct (insert_opens_request_exec_sends online {| pool_config := sample_config |}
              ltac:(reflexivity) (OneRow order_1) order_handle
              ltac:(discriminate) ltac:(discriminate))
    as (Hres & Hev & _).
  split; [exact Hres | exact Hev].
Defined.

(** C4 as stated fails on the sample handle: the insert call has opened
    request 0 on the pool when it returns. *)
Lemma insert_is_not_local :
  ¬ spec_insert_is_local (OneRow order_1) order_handle online.
Proof. intros [Hev _]. vm_compute in Hev. discriminate Hev. Qed.

(** C5, as the code has it: [exec] sends the handle's table and leaves
    the handle as it was, buffer included; of two flushes in a row the
    first sends the old rows and its own, the second sends all of these
    again before its own, and the buffer ends up holding them all. *)
Theorem exec_keeps_buffer
    (rows1 rows2 : RowsArg) (this : TableHandle) (w : World) (p : ConnectionPool) :
  pool w = Some p → innerColumns this ≠ [] → flat rows1 ≠ [] → flat rows2 ≠ [] →
  let r1 := insert_exec rows1 this w in
  let r2 := insert_exec rows2 (handle_after r1) (world_after r1) in
  (∀ res this' w', handle_after (exec res this' w') = this')
  ∧ tbl_rows (innerTable (handle_after r1))
    = tbl_rows (innerTable this) ++ extracted this rows1
  ∧ tbl_rows (innerTable (handle_after r2))
    = tbl_rows (innerTable this) ++ extracted this rows1 ++ extracted this rows2
  ∧ tbl_rows <$> bulk_copies (events (world_after r2))
    = (tbl_rows <$> bulk_copies (events w))
      ++ [ tbl_rows (innerTable this) ++ extracted this rows1;
           tbl_rows (innerTable this) ++ extracted this rows1 ++ extracted this rows2 ].
Proof.
  intros Hpool Hcols Hrows1 Hrows2 r1 r2.
  assert (Hgo1 : nothing_to_insert rows1 this = false)
    by (apply nothing_to_insert_false; done).
  pose proof (insert_exec_with_pool w p Hpool rows1 this Hgo1) as E1.
  cbv zeta in E1. fold r1 in E1.
  assert (Hgo2 : nothing_to_insert rows2 (handle_after r1) = false)
    by (apply nothing_to_insert_false; rewrite E1; done).
  assert (Hpool1 : pool (world_after r1) = Some p) by (rewrite E1; exact Hpool).
  pose proof (insert_exec_with_pool _ p Hpool1 rows2 _ Hgo2) as E2.
  cbv zeta in E2. fold r2 in E2.
  assert (B1 : tbl_rows (innerTable (handle_after r1))
               = tbl_rows (innerTable this) ++ extracted this rows1)
    by (rewrite E1; apply buffer_rows_rows).
  assert (C1 : innerColumns (handle_after r1) = innerColumns this) by (rewrite E1; done).
  assert (B2 : tbl_rows (innerTable (handle_after r2))
               = tbl_rows (innerTable this) ++ extracted this rows1 ++ extracted this rows2).
  { rewrite E2. simpl. rewrite buffer_rows_rows, B1, C1. by rewrite <- app_assoc. }
  split; [|split; [exact B1|split; [exact B2|]]].
  - intros res this' w'. by rewrite exec_events.
  - assert (T2 : innerTable (handle_after r2)
                 = buffer_rows (innerColumns (handle_after r1)) (flat rows2)
                     (innerTable (handle_after r1))) by (rewrite E2; done).
    assert (T1 : innerTable (handle_after r1)
                 = buffer_rows (innerColumns this) (flat rows1) (innerTable this))
      by (rewrite E1; done).
    rewrite E2. simpl. rewrite <- T2. rewrite E1. simpl. rewrite <- T1.
    unfold bulk_copies. rewrite !omap_app. simpl.
    rewrite !app_nil_r, <- app_assoc, !fmap_app. simpl.
    by rewrite B1, B2.
Qed.

Lemma exec_keeps_buffer_witness :
  tbl_rows (innerTable (handle_after second_flush))
  = [ [VNum 1; VNum 250; VStr "first"]; [VNum 2; VNum 75; VUndefined] ].
Proof.
  destruct (exec_keeps_buffer (OneRow order_1) (OneRow order_2) order_handle online
              {| pool_config := sample_config |}
              ltac:(reflexivity) ltac:(discriminate) ltac:(discriminate) ltac:(discriminate))
    as (_ & _ & Hbuf & _).
  unfold second_flush, first_flush. rewrite Hbuf. vm_compute. reflexivity.
Defined.

(** C5 as stated fails on the sample handle: after the first flush the
    buffer still holds the flushed row, and the second flush sends it
    again ahead of the new one. *)
Lemma exec_does_not_empty_buffer :
  ¬ spec_exec_empties_buffer {| exec_request := 0 |}
      (handle_after (insert (OneRow order_1) order_handle online))
      (world_after (insert (OneRow order_1) order_handle online))
  ∧ tbl_rows <$> bulk_copies (events (world_after second_flush))
    = [ [ [VNum 1; VNum 250; VStr "first"] ];
        [ [VNum 1; VNum 250; VStr "first"]; [VNum 2; VNum 75; VUndefined] ] ].
Proof.
  split.
  - unfold spec_exec_empties_buffer. intros H. vm_compute in H. discriminate H.
  - vm_compute. reflexivity.
Qed.

(** ** Switching the database *)

(** C3: a database name with a character outside letters, digits and
    underscore is refused with the invalid-name error and nothing is
    issued; a name within the allow-list passes, and with a pool one
    request is opened and the one statement [USE name] is issued on it,
    whose answer is the result. *)
Theorem useDb_allow_list (name : string) (w : World) :
  ((∃ c, c ∈ units name ∧ c ∉ units allow_list) →
     useDb name w = (Rejected (invalid_database_name name), w))
  ∧ ((∀ c, c ∈ units name → c ∈ units allow_list) →
     ∀ p, pool w = Some p →
       fst (useDb name w) = query_answer (driver w) ("USE " +:+ name)
       ∧ events (snd (useDb name w))
         = events w ++ [EvRequest (requests w); EvQuery (requests w) ("USE " +:+ name)]
       ∧ statements (events (snd (useDb name w)))
         = statements (events w) ++ ["USE " +:+ name]).
Proof.
  split.
  - intros Hbad. apply forbiddenChars_test_true in Hbad.
    unfold useDb. by rewrite Hbad.
  - intros Hgood p Hpool. apply forbiddenChars_test_false in Hgood.
    unfold useDb. rewrite Hgood, (request_with_pool w p Hpool), (escape_allowed name Hgood).
    simpl. split; [done|]. split.
    + by rewrite <- app_assoc.
    + unfold statements. rewrite <- app_assoc, omap_app. simpl. done.
Qed.

Lemma useDb_allow_list_witness :
  useDb "sales; DROP TABLE x" online
    = (Rejected (invalid_database_name "sales; DROP TABLE x"), online)
  ∧ fst (useDb "sales_db" online) = Resolved tt
  ∧ statements (events (snd (useDb "sales_db" online))) = ["USE sales_db"].
Proof.
  split.
  - apply (proj1 (useDb_allow_list "sales; DROP TABLE x" online)).
    exists ";"%char. split.
    + apply (bool_decide_unpack _). vm_compute. exact I.
    + intros Hin. apply (bool_decide_pack _) in Hin. vm_compute in Hin. exact Hin.
  - destruct (proj2 (useDb_allow_list "sales_db" online)
                (proj1 (forbiddenChars_test_false "sales_db") eq_refl)
                {| pool_config := sample_config |} eq_refl) as (Hres & _ & Hst).
    split; [exact Hres | exact Hst].
Defined.

(** ** The factory *)

Lemma new_MssqlTable_extends (w : World) :
  new_MssqlTable OptExtends w = (Returned tt, w).
Proof. unfold new_MssqlTable. simpl. by rewrite andb_false_r. Qed.

Lemma createForClass_with_columns
    (table : Class) (reg : Registry) (w : World) (cs : list ColumnMetadata) :
  columnMetadata reg !! class_id table = Some cs →
  createForClass table reg w
  = (Returned {| props := defineProperties (delete "constructor" prototype_descriptors)
                            (DataProperty <$> class_fields table);
                 innerTable := add_columns cs
                                 (set_create true (new_Table (tableMetadata reg !! class_id table)));
                 innerColumns := column <$> cs |}, w).
Proof.
  intros Hcs. unfold createForClass. rewrite new_MssqlTable_extends, Hcs. reflexivity.
Qed.

Lemma createForClass_Order (w : World) :
  createForClass Order sample_registry w = (Returned order_handle, w).
Proof.
  unfold createForClass. rewrite new_MssqlTable_extends. vm_compute. reflexivity.
Qed.

Lemma createForClass_no_columns (table : Class) (reg : Registry) (w : World) :
  columnMetadata reg !! class_id table = None →
  createForClass table reg w = (Thrown (TypeError "columns is not iterable"), w).
Proof.
  intros Hnone. unfold createForClass. rewrite new_MssqlTable_extends, Hnone. reflexivity.
Qed.

(** C7, on the code: for a class without column metadata the factory
    throws, with or without a [@Table] on the class: the loop over the
    columns iterates [undefined], and no handle is returned. *)
Theorem createForClass_without_columns_throws (table : Class) (reg : Registry) (w : World) :
  columnMetadata reg !! class_id table = None →
  createForClass table reg w = (Thrown (TypeError "columns is not iterable"), w)
  ∧ (∀ name, createForClass table (Table name table reg) w
             = (Thrown (TypeError "columns is not iterable"), w))
  ∧ ∀ h w', createForClass table reg w ≠ (Returned h, w').
Proof.
  intros Hnone. split; [|split].
  - by apply createForClass_no_columns.
  - intros name. by apply createForClass_no_columns.
  - intros h w'. rewrite (createForClass_no_columns table reg w Hnone). discriminate.
Qed.

Lemma createForClass_without_columns_throws_witness :
  createForClass Bare sample_registry online
  = (Thrown (TypeError "columns is not iterable"), online).
Proof.
  apply (createForClass_without_columns_throws Bare sample_registry online).
  vm_compute. reflexivity.
Defined.

(** C6, on the code: a handle the factory returns has [insert], [table]
    and [db] as own properties, and [onApplicationShutdown] as well; of
    the prototype's members only [constructor] is left out. *)
Theorem createForClass_copies_shutdown_hook
    (table : Class) (reg : Registry) (w w' : World) (h : TableHandle) :
  createForClass table reg w = (Returned h, w') →
  props h !! "insert" = Some (MethodProperty MInsert)
  ∧ props h !! "table" = Some (AccessorProperty MTable)
  ∧ props h !! "db" = Some (AccessorProperty MDb)
  ∧ props h !! "onApplicationShutdown" = Some (MethodProperty MOnApplicationShutdown)
  ∧ props h !! "constructor" = DataProperty <$> (class_fields table !! "constructor").
Proof.
  intros Hcreate.
  destruct (columnMetadata reg !! class_id table) as [cs|] eqn:Hcs.
  - rewrite (createForClass_with_columns table reg w cs Hcs) in Hcreate.
    injection Hcreate as <- _. simpl. unfold defineProperties.
    repeat split; try (apply lookup_union_Some_l; vm_compute; reflexivity).
    rewrite lookup_union_r by (vm_compute; reflexivity).
    apply lookup_fmap.
  - rewrite (createForClass_no_columns table reg w Hcs) in Hcreate.
    discriminate Hcreate.
Qed.

Lemma createForClass_copies_shutdown_hook_witness :
  props order_handle !! "onApplicationShutdown" = Some (MethodProperty MOnApplicationShutdown).
Proof.
  destruct (createForClass_copies_shutdown_hook Order sample_registry online online order_handle
              (createForClass_Order online)) as (_ & _ & _ & Hhook & _).
  exact Hhook.
Defined.

(** ** The first pool construction *)

(** C8, as the code has it: when the pool cannot be opened, the
    construction returns, the failure is printed once the promise
    settles, the pool stays unset and the next configured construction
    connects again; a construction without the required configuration
    throws to its caller, prints nothing and leaves the pool unset. *)
Theorem first_construction_failures (w : World) (cfg : Config) (err : JsError) :
  pool w = None → connecting w = [] → connect_answer (driver w) cfg = Rejected err →
  let started := snd (new_MssqlTable (OptObject (Some cfg)) w) in
  fst (new_MssqlTable (OptObject (Some cfg)) w) = Returned tt
  ∧ events started = events w ++ [EvConnect cfg]
  ∧ pool (settle_connect started) = None
  ∧ console (settle_connect started)
    = console w ++ [("Error creating connection pool", err)]
  ∧ (∀ cfg', new_MssqlTable (OptObject (Some cfg')) (settle_connect started)
             = (Returned tt,
                set_connecting [cfg'] (emit (EvConnect cfg') (settle_connect started))))
  ∧ new_MssqlTable (OptObject None) w = (Thrown config_required, w)
  ∧ new_MssqlTable OptUndefined w = (Thrown config_required, w).
Proof.
  intros Hpool Hidle Hdown started.
  assert (Hstart : new_MssqlTable (OptObject (Some cfg)) w
                   = (Returned tt, set_connecting [cfg] (emit (EvConnect cfg) w))).
  { unfold new_MssqlTable. rewrite Hpool, Hidle. reflexivity. }
  assert (Hsettled : settle_connect started
                     = console_error "Error creating connection pool" err
                         (set_connecting [] (set_connecting [cfg] (emit (EvConnect cfg) w)))).
  { unfold started. rewrite Hstart. unfold settle_connect. simpl. by rewrite Hdown. }
  repeat split.
  - by rewrite Hstart.
  - unfold started. by rewrite Hstart.
  - rewrite Hsettled. exact Hpool.
  - by rewrite Hsettled.
  - intros cfg'. rewrite Hsettled. unfold new_MssqlTable. simpl. rewrite Hpool. reflexivity.
  - unfold new_MssqlTable. rewrite Hpool. reflexivity.
  - unfold new_MssqlTable. rewrite Hpool. reflexivity.
Qed.

Lemma first_construction_failures_witness :
  console (settle_connect (snd (new_MssqlTable (OptObject (Some sample_config)) (boot down_driver))))
  = [("Error creating connection pool", DriverError "ESOCKET")]
  ∧ new_MssqlTable (OptObject None) (boot down_driver)
    = (Thrown config_required, boot down_driver).
Proof.
  destruct (first_construction_failures (boot down_driver) sample_config (DriverError "ESOCKET")
              ltac:(reflexivity) ltac:(reflexivity) ltac:(reflexivity))
    as (_ & _ & _ & Hlog & _ & Hthrow & _).
  split; [exact Hlog | exact Hthrow].
Defined.

(** C8 as stated fails at a construction without configuration: the
    error reaches the caller and nothing is printed. *)
Lemma missing_config_is_thrown :
  ¬ spec_construction_never_throws (OptObject None) (boot ok_driver)
  ∧ console (snd (new_MssqlTable (OptObject None) (boot ok_driver))) = [].
Proof.
  split; [|reflexivity].
  unfold spec_construction_never_throws. intros H. vm_compute in H. discriminate H.
Qed.

(** ** Table names *)

Lemma lower_unit_idempotent (c : ascii) :
  Str.lower_unit (Str.lower_unit c) = Str.lower_unit c.
Proof. destruct c as [[] [] [] [] [] [] [] []]; vm_compute; reflexivity. Qed.

Lemma toLowerCase_idempotent (s : string) :
  Str.toLowerCase (Str.toLowerCase s) = Str.toLowerCase s.
Proof.
  induction s as [|c s IH]; simpl; [done|].
  by rewrite lower_unit_idempotent, IH.
Qed.

Lemma toLowerCase_empty (s : string) :
  Str.toLowerCase s = "" ↔ s = "".
Proof. destruct s; simpl; split; intros H; try done; discriminate H. Qed.

Lemma toLowerCase_length (s : string) :
  String.length (Str.toLowerCase s) = String.length s.
Proof. induction s as [|c s IH]; simpl; [done | by rewrite IH]. Qed.

Lemma Table_lookup (name : option string) (c : Class) (reg : Registry) :
  tableMetadata (Table name c reg) !! class_id c
  = Some (or_string (Str.toLowerCase <$> name) (Str.toLowerCase (class_name c))).
Proof. unfold Table. simpl. apply lookup_insert_eq. Qed.

(** C9, as the code has it: a supplied, non-empty table name is stored
    lower-cased, hence as given exactly when it has no upper-case letter;
    without a name, or with the empty one, the lower-cased class name is
    stored; the stored name is always in lower case, and the entries of
    other classes and the column metadata stay as they were. *)
Theorem Table_stores_lower_case (name : option string) (c : Class) (reg : Registry) :
  (∀ n, name = Some n → n ≠ "" →
     tableMetadata (Table name c reg) !! class_id c = Some (Str.toLowerCase n)
     ∧ (tableMetadata (Table name c reg) !! class_id c = Some n ↔ Str.toLowerCase n = n))
  ∧ (name = None ∨ name = Some "" →
     tableMetadata (Table name c reg) !! class_id c = Some (Str.toLowerCase (class_name c)))
  ∧ (∀ s, tableMetadata (Table name c reg) !! class_id c = Some s → Str.toLowerCase s = s)
  ∧ (∀ k, k ≠ class_id c →
     tableMetadata (Table name c reg) !! k = tableMetadata reg !! k)
  ∧ columnMetadata (Table name c reg) = columnMetadata reg.
Proof.
  rewrite Table_lookup. split; [|split; [|split; [|split]]].
  - intros n -> Hn. simpl.
    destruct (decide (Str.toLowerCase n = "")) as [He|_].
    + exfalso. apply Hn. exact (proj1 (toLowerCase_empty n) He).
    + split; [done|]. split; [intros H; by injection H | intros ->; done].
  - intros [-> | ->]; reflexivity.
  - intros s Hs. injection Hs as <-.
    destruct name as [n|]; simpl; [|apply toLowerCase_idempotent].
    destruct (decide (Str.toLowerCase n = "")); apply toLowerCase_idempotent.
  - intros k Hk. unfold Table. simpl. by apply lookup_insert_ne.
  - reflexivity.
Qed.

Lemma Table_stores_lower_case_witness :
  tableMetadata (Table (Some "Sales_Orders") Order empty_registry) !! class_id Order
    = Some (Str.toLowerCase "Sales_Orders")
  ∧ tableMetadata (Table None Order empty_registry) !! class_id Order = Some "order".
Proof.
  destruct (Table_stores_lower_case (Some "Sales_Orders") Order empty_registry) as (Hgiven & _).
  destruct (Table_stores_lower_case None Order empty_registry) as (_ & Hdefault & _).
  split.
  - apply (Hgiven "Sales_Orders"); [reflexivity | discriminate].
  - apply Hdefault. by left.
Defined.

(** C9 as stated fails for a name with an upper-case letter: [Orders] is
    stored as [orders]. *)
Lemma Table_does_not_store_name_as_given :
  tableMetadata (Table (Some "Orders") Order empty_registry) !! class_id Order
    ≠ Some (spec_table_name (Some "Orders") Order)
  ∧ tableMetadata (Table (Some "Orders") Order empty_registry) !! class_id Order
    = Some "orders".
Proof.
  rewrite Table_lookup. split.
  - vm_compute. intros H. discriminate H.
  - vm_compute. reflexivity.
Qed.

(** ** Column declarations *)

Lemma Column_lookup (name : option string) (ty : option SqlType) (design : TypeofReturnValue)
    (target : Class) (propertyKey : string) (reg : Registry) :
  columnMetadata (Column name ty design target propertyKey reg) !! class_id target
  = Some (default [] (columnMetadata reg !! class_id target)
          ++ [ {| column := propertyKey;
                  columnName := or_string name (Str.toLowerCase propertyKey);
                  type := match ty with Some t => t | None => sqlTypes design end |} ]).
Proof. unfold Column. simpl. apply lookup_insert_eq. Qed.

Lemma Column_frame (name : option string) (ty : option SqlType) (design : TypeofReturnValue)
    (target : Class) (propertyKey : string) (reg : Registry) :
  tableMetadata (Column name ty design target propertyKey reg) = tableMetadata reg
  ∧ ∀ k, k ≠ class_id target →
      columnMetadata (Column name ty design target propertyKey reg) !! k
      = columnMetadata reg !! k.
Proof.
  split; [reflexivity|]. intros k Hk. unfold Column. simpl. by apply lookup_insert_ne.
Qed.





(** ** Registries built by the decorators *)

Lemma or_string_lower (a : option string) (b : string) :
  Str.toLowerCase (or_string (Str.toLowerCase <$> a) (Str.toLowerCase b))
  = or_string (Str.toLowerCase <$> a) (Str.toLowerCase b).
Proof.
  destruct a as [n|]; simpl; [|apply toLowerCase_idempotent].
  destruct (decide (Str.toLowerCase n = "")); apply toLowerCase_idempotent.
Qed.

(** X2: in every registry the two decorators can build, a class that has
    column metadata has at least one column, every stored column name of
    a property with a non-empty key is non-empty, and every stored table
    name is in lower case. *)
Theorem Declared_invariant (reg : Registry) :
  Declared reg →
  (∀ k cs, columnMetadata reg !! k = Some cs → cs ≠ [])
  ∧ (∀ k cs m, columnMetadata reg !! k = Some cs → m ∈ cs →
       column m ≠ "" → columnName m ≠ "")
  ∧ (∀ k s, tableMetadata reg !! k = Some s → Str.toLowerCase s = s).
Proof.
  induction 1 as [|name c reg _ (IH1 & IH2 & IH3)
                  |name ty design target key reg _ (IH1 & IH2 & IH3)].
  - split; [|split]; simpl.
    + intros k cs H. by rewrite lookup_empty in H.
    + intros k cs m H. by rewrite lookup_empty in H.
    + intros k s H. by rewrite lookup_empty in H.
  - split; [exact IH1|]. split; [exact IH2|].
    intros k s. unfold Table. simpl.
    destruct (decide (k = class_id c)) as [->|Hk].
    + rewrite lookup_insert_eq. intros [= <-]. apply or_string_lower.
    + rewrite lookup_insert_ne by done. apply IH3.
  - split; [|split; [|exact IH3]].
    + intros k cs. destruct (decide (k = class_id target)) as [->|Hk].
      * rewrite Column_lookup. intros [= <-].
        destruct (default [] (columnMetadata reg !! class_id target)); discriminate.
      * rewrite (proj2 (Column_frame name ty design target key reg) k Hk). apply IH1.
    + intros k cs m. destruct (decide (k = class_id target)) as [->|Hk].
      * rewrite Column_lookup. intros [= <-] Hin Hkey.
        apply elem_of_app in Hin as [Hold | Hnew].
        -- destruct (columnMetadata reg !! class_id target) as [old|] eqn:Hold'.
           ++ by apply (IH2 (class_id target) old m).
           ++ simpl in Hold. by apply elem_of_nil in Hold.
        -- apply list_elem_of_singleton in Hnew. subst m. simpl in *.
           unfold or_string. destruct name as [n|].
           ++ destruct (decide (n = "")); [|done].
              intros He. apply Hkey. exact (proj1 (toLowerCase_empty key) He).
           ++ intros He. apply Hkey. exact (proj1 (toLowerCase_empty key) He).
      * rewrite (proj2 (Column_frame name ty design target key reg) k Hk). apply IH2.
Qed.

Lemma Declared_invariant_witness :
  default [] (columnMetadata sample_registry !! class_id Order) ≠ []
  ∧ Str.toLowerCase (default "" (tableMetadata sample_registry !! class_id Order))
    = default "" (tableMetadata sample_registry !! class_id Order).
Proof.
  destruct (Declared_invariant sample_registry) as (Hcols & _ & Hnames).
  { unfold sample_registry. repeat constructor. }
  split.
  - apply (Hcols (class_id Order)). vm_compute. reflexivity.
  - apply (Hnames (class_id Order)). vm_compute. reflexivity.
Defined.

(** ** What the factory builds *)







(** ** More on insert *)

(** X5: [insert] returns nothing exactly when there is nothing to insert:
    a missing argument, an empty array, or a handle without columns.
    Then it neither buffers, nor asks for the pool, nor fails, pool or
    no pool. *)
Theorem insert_returns_nothing_iff (rows : RowsArg) (this : TableHandle) (w : World) :
  (result_of (insert rows this w) = Returned None
     ↔ flat rows = [] ∨ innerColumns this = [])
  ∧ (result_of (insert rows this w) = Returned None →
       handle_after (insert rows this w) = this ∧ world_after (insert rows this w) = w).
Proof.
  assert (Hiff : result_of (insert rows this w) = Returned None
                 ↔ flat rows = [] ∨ innerColumns this = []).
  { split.
    - intros Hres. destruct (nothing_to_insert rows this) eqn:Hgo.
      + destruct (flat rows) eqn:Hr; [by left|]. right.
        destruct (innerColumns this) eqn:Hc; [done|]. exfalso.
        assert (nothing_to_insert rows this = false); [|congruence].
        apply nothing_to_insert_false. rewrite Hr, Hc. done.
      + exfalso. unfold insert in Hres. rewrite Hgo in Hres.
        unfold request in Hres. destruct (pool w); discriminate Hres.
    - intros H. by rewrite (insert_nothing rows this w H). }
  split; [exact Hiff|].
  intros Hres. apply Hiff in Hres. by rewrite (insert_nothing rows this w Hres).
Qed.

Lemma insert_world (rows : RowsArg) (this : TableHandle) (w : World) :
  world_after (insert rows this w) = w
  ∨ world_after (insert rows this w) = fresh_request (emit (EvRequest (requests w)) w).
Proof.
  unfold insert. destruct (nothing_to_insert rows this); [by left|].
  unfold request. destruct (pool w); [by right | by left].
Qed.

(** X6: whatever it is given and whether or not it fails, [insert]
    changes nothing of the handle but the rows of its table, keeps the
    rows already buffered in front, and leaves the pool, the pending
    connections, the console and the driver as they were. *)
Theorem insert_changes_rows_only (rows : RowsArg) (this : TableHandle) (w : World) :
  props (handle_after (insert rows this w)) = props this
  ∧ innerColumns (handle_after (insert rows this w)) = innerColumns this
  ∧ tbl_name (innerTable (handle_after (insert rows this w))) = tbl_name (innerTable this)
  ∧ tbl_create (innerTable (handle_after (insert rows this w))) = tbl_create (innerTable this)
  ∧ tbl_columns (innerTable (handle_after (insert rows this w))) = tbl_columns (innerTable this)
  ∧ tbl_rows (innerTable this) `prefix_of` tbl_rows (innerTable (handle_after (insert rows this w)))
  ∧ pool (world_after (insert rows this w)) = pool w
  ∧ connecting (world_after (insert rows this w)) = connecting w
  ∧ console (world_after (insert rows this w)) = console w
  ∧ driver (world_after (insert rows this w)) = driver w.
Proof.
  destruct (nothing_to_insert rows this) eqn:Hgo.
  - unfold insert. rewrite Hgo. simpl. repeat split; done.
  - rewrite (insert_handle rows this w Hgo). simpl.
    destruct (buffer_rows_frame (innerColumns this) (flat rows) (innerTable this))
      as (-> & -> & ->).
    rewrite buffer_rows_rows.
    repeat split; try done; try (by apply prefix_app_r);
      destruct (insert_world rows this w) as [-> | ->]; reflexivity.
Qed.

Lemma row_values_agree (columns : list string) (row1 row2 : gmap string jsval) :
  (∀ c, c ∈ columns → row1 !! c = row2 !! c) →
  row_values columns row1 = row_values columns row2.
Proof.
  intros Hagree. unfold row_values. apply list_fmap_ext.
  intros i c Hc. unfold row_get. rewrite (Hagree c); [done|].
  by apply list_elem_of_lookup_2 with i.
Qed.

Lemma buffer_rows_agree (columns : list string) (rs1 rs2 : list (gmap string jsval)) (t : MsTable) :
  Forall2 (λ row1 row2, ∀ c, c ∈ columns → row1 !! c = row2 !! c) rs1 rs2 →
  buffer_rows columns rs1 t = buffer_rows columns rs2 t.
Proof.
  intros H. revert t. induction H as [|row1 row2 rs1 rs2 Hrow _ IH]; intros t; [done|].
  simpl. rewrite (row_values_agree columns row1 row2 Hrow). apply IH.
Qed.

(** X7: [insert] reads a row through the declared columns only: rows
    that agree on every declared column are buffered alike, whatever
    other properties they carry, and a declared column the row lacks is
    buffered as [undefined]. *)
Theorem insert_reads_declared_columns_only
    (rs1 rs2 : list (gmap string jsval)) (this : TableHandle) (w : World) :
  Forall2 (λ row1 row2, ∀ c, c ∈ innerColumns this → row1 !! c = row2 !! c) rs1 rs2 →
  insert (ManyRows rs1) this w = insert (ManyRows rs2) this w
  ∧ ∀ k row i c, rs1 !! k = Some row → innerColumns this !! i = Some c → row !! c = None →
      ∃ values, extracted this (ManyRows rs1) !! k = Some values
                ∧ values !! i = Some VUndefined.
Proof.
  intros Hagree. split.
  - unfold insert, nothing_to_insert. simpl.
    rewrite (buffer_rows_agree (innerColumns this) rs1 rs2 (innerTable this) Hagree).
    by destruct Hagree.
  - intros k row i c Hk Hi Hnone. exists (row_values (innerColumns this) row). split.
    + unfold extracted. simpl. by apply list_lookup_fmap_Some_2.
    + rewrite (row_values_lookup _ row i c Hi). unfold row_get. by rewrite Hnone.
Qed.

Lemma insert_reads_declared_columns_only_witness :
  insert (ManyRows [order_2]) order_handle online
  = insert (ManyRows [<["comment" := VStr "rush"]> order_2]) order_handle online.
Proof.
  apply (insert_reads_declared_columns_only [order_2] [<["comment" := VStr "rush"]> order_2]
           order_handle online).
  constructor; [|constructor].
  intros c Hc. rewrite lookup_insert_ne; [done|].
  intros <-. apply (bool_decide_pack _) in Hc. vm_compute in Hc. exact Hc.
Defined.

(** X8: [exec] sends the buffer as it is when [exec] runs, not as it was
    when its [insert] returned: with a pool, after two inserts the [exec]
    of the first result sends, on the first request, the old rows and
    the rows of both inserts, and answers with the driver's answer for
    that table. *)
Theorem exec_sends_buffer_of_its_time
    (rows1 rows2 : RowsArg) (this : TableHandle) (w : World) (p : ConnectionPool) :
  pool w = Some p → innerColumns this ≠ [] → flat rows1 ≠ [] → flat rows2 ≠ [] →
  ∃ res1 res2 this1 w1 this2 w2,
    insert rows1 this w = (Returned (Some res1), this1, w1)
    ∧ insert rows2 this1 w1 = (Returned (Some res2), this2, w2)
    ∧ exec_request res1 ≠ exec_request res2
    ∧ tbl_rows (innerTable this2)
      = tbl_rows (innerTable this) ++ extracted this rows1 ++ extracted this rows2
    ∧ events (world_after (exec res1 this2 w2))
      = events w ++ [EvRequest (exec_request res1); EvRequest (exec_request res2);
                     EvBulk (exec_request res1) (innerTable this2)]
    ∧ result_of (exec res1 this2 w2) = bulk_answer (driver w) (innerTable this2).
Proof.
  intros Hpool Hcols Hrows1 Hrows2.
  assert (Hgo1 : nothing_to_insert rows1 this = false)
    by (apply nothing_to_insert_false; done).
  pose proof (insert_with_pool w p Hpool rows1 this Hgo1) as E1.
  set (this1 := set_innerTable (buffer_rows (innerColumns this) (flat rows1) (innerTable this)) this) in *.
  set (w1 := fresh_request (emit (EvRequest (requests w)) w)) in *.
  assert (Hgo2 : nothing_to_insert rows2 this1 = false)
    by (apply nothing_to_insert_false; done).
  pose proof (insert_with_pool w1 p Hpool rows2 this1 Hgo2) as E2.
  eexists _, _, _, _, _, _. split; [exact E1|]. split; [exact E2|].
  split; [simpl; lia|]. split.
  - simpl. rewrite !buffer_rows_rows. by rewrite <- app_assoc.
  - rewrite exec_events. simpl. split; [|done].
    by rewrite <- !app_assoc.
Qed.

Lemma exec_sends_buffer_of_its_time_witness :
  ∃ res1 res2 this1 w1 this2 w2,
    insert (OneRow order_1) order_handle online = (Returned (Some res1), this1, w1)
    ∧ insert (OneRow order_2) this1 w1 = (Returned (Some res2), this2, w2)
    ∧ bulk_copies (events (world_after (exec res1 this2 w2))) = [innerTable this2]
    ∧ tbl_rows (innerTable this2)
      = [ [VNum 1; VNum 250; VStr "first"]; [VNum 2; VNum 75; VUndefined] ].
Proof.
  destruct (exec_sends_buffer_of_its_time (OneRow order_1) (OneRow order_2) order_handle online
              {| pool_config := sample_config |}
              ltac:(reflexivity) ltac:(discriminate) ltac:(discriminate) ltac:(discriminate))
    as (res1 & res2 & this1 & w1 & this2 & w2 & E1 & E2 & _ & Hrows & Hev & _).
  exists res1, res2, this1, w1, this2, w2.
  split; [exact E1|]. split; [exact E2|]. split.
  - rewrite Hev. reflexivity.
  - rewrite Hrows. vm_compute. reflexivity.
Defined.

(** ** Drop, switch, shut down *)

(** X9: with a pool, [table.drop()] opens one request, binds the
    handle's table name to the parameter [name] as an [NVarChar(128)]
    and issues one statement on that request; the text of the statement
    is the same for every handle, so the table name never becomes part
    of the SQL text, and the result is the driver's answer to it. *)
Theorem drop_binds_table_name (this : TableHandle) (w : World) (p : ConnectionPool) :
  pool w = Some p →
  fst (drop this w) = query_answer (driver w) drop_query
  ∧ events (snd (drop this w))
    = events w ++ [ EvRequest (requests w);
                    EvInput (requests w) "name" (SqlNVarChar 128) (tbl_name (innerTable this));
                    EvQuery (requests w) drop_query ]
  ∧ ∀ other, statements (events (snd (drop other w))) = statements (events w) ++ [drop_query].
Proof.
  intros Hpool. unfold drop. rewrite (request_with_pool w p Hpool). simpl.
  split; [done|]. split; [by rewrite <- !app_assoc|].
  intros other. unfold statements. rewrite <- !app_assoc, omap_app. reflexivity.
Qed.

Lemma drop_binds_table_name_witness :
  events (snd (drop order_handle online))
  = events online ++ [ EvRequest 0;
                       EvInput 0 "name" (SqlNVarChar 128) (Some "order");
                       EvQuery 0 drop_query ].
Proof.
  destruct (drop_binds_table_name order_handle online {| pool_config := sample_config |}
              ltac:(reflexivity)) as (_ & Hev & _).
  exact Hev.
Defined.

Lemma useDb_statements (name : string) (w : World) :
  statements (events (snd (useDb name w))) = statements (events w)
  ∨ (Str.forbiddenChars_test name = false
     ∧ statements (events (snd (useDb name w))) = statements (events w) ++ ["USE " +:+ name]).
Proof.
  unfold useDb. destruct (Str.forbiddenChars_test name) eqn:Hname; [by left|].
  unfold request. destruct (pool w); [|by left].
  right. split; [done|]. simpl. rewrite (escape_allowed name Hname).
  unfold statements. rewrite <- !app_assoc, omap_app. reflexivity.
Qed.

(** X10: whatever the name and the state of the pool, [db.useDb] sends
    at most one statement, and a statement it sends is [USE] followed by
    the name unchanged, every character of which is a letter, a digit or
    an underscore. *)
Theorem useDb_sends_only_allowed_names (name : string) (w : World) :
  ∃ sent, statements (events (snd (useDb name w))) = statements (events w) ++ sent
    ∧ (length sent ≤ 1)%nat
    ∧ ∀ sql, sql ∈ sent →
        sql = "USE " +:+ name ∧ ∀ c, c ∈ units name → c ∈ units allow_list.
Proof.
  destruct (useDb_statements name w) as [Hnone | [Hname Hone]].
  - exists []. rewrite app_nil_r. split; [exact Hnone|]. split; [simpl; lia|].
    intros sql Hin. by apply elem_of_nil in Hin.
  - exists ["USE " +:+ name]. split; [exact Hone|]. split; [simpl; lia|].
    intros sql Hin. apply list_elem_of_singleton in Hin. split; [exact Hin|].
    by apply forbiddenChars_test_false.
Qed.

(** X11: [onApplicationShutdown] closes the pool when there is one and
    does nothing otherwise; in both cases the static pool stays as it
    was, so that after a shutdown a request is still handed out instead
    of the pool error. *)
Theorem shutdown_keeps_pool (w : World) :
  pool (snd (onApplicationShutdown w)) = pool w
  ∧ (pool w = None → onApplicationShutdown w = (Resolved tt, w))
  ∧ (∀ p, pool w = Some p →
       fst (onApplicationShutdown w) = close_answer (driver w)
       ∧ events (snd (onApplicationShutdown w)) = events w ++ [EvClose]
       ∧ fst (request (snd (onApplicationShutdown w))) = Returned (requests w)).
Proof.
  unfold onApplicationShutdown. destruct (pool w) as [q|] eqn:Hq; simpl.
  - split; [exact Hq|]. split; [discriminate|].
    intros p _. split; [done|]. split; [done|].
    unfold request. simpl. by rewrite Hq.
  - split; [exact Hq|]. split; [done|]. discriminate.
Qed.

Lemma shutdown_keeps_pool_witness :
  events (snd (onApplicationShutdown online)) = events online ++ [EvClose]
  ∧ onApplicationShutdown (boot ok_driver) = (Resolved tt, boot ok_driver).
Proof.
  destruct (shutdown_keeps_pool online) as (_ & _ & Hopen).
  destruct (shutdown_keeps_pool (boot ok_driver)) as (_ & Hnone & _).
  destruct (Hopen {| pool_config := sample_config |} ltac:(reflexivity)) as (_ & Hev & _).
  split; [exact Hev | exact (Hnone ltac:(reflexivity))].
Defined.

(** ** More on construction *)

(** X12: once a pool is stored, or when the argument is a symbol, a
    construction does nothing at all: it starts no connection and does
    not throw, not even for a missing configuration. *)
Theorem construction_is_inert (options : Options) (w : World) :
  is_Some (pool w) ∨ typeof_symbol options = true →
  new_MssqlTable options w = (Returned tt, w).
Proof.
  intros [Hpool | Hsym]; unfold new_MssqlTable.
  - by rewrite (bool_decide_eq_true_2 _ Hpool).
  - rewrite Hsym. simpl. by rewrite andb_false_r.
Qed.

Lemma construction_is_inert_witness :
  new_MssqlTable (OptObject None) online = (Returned tt, online)
  ∧ new_MssqlTable OptSymbol (boot down_driver) = (Returned tt, boot down_driver).
Proof.
  split.
  - apply (construction_is_inert (OptObject None) online). left. by eexists.
  - apply (construction_is_inert OptSymbol (boot down_driver)). by right.
Defined.

(** X13: a first configured construction with a reachable server
    returns before the pool is stored: until the connection settles a
    request still fails with the pool error.  Once it has settled the
    pool is stored, nothing was printed, requests are handed out, and
    every later construction is without effect. *)
Theorem first_construction_connects (w : World) (cfg : Config) (p : ConnectionPool) :
  pool w = None → connecting w = [] → connect_answer (driver w) cfg = Resolved p →
  let started := snd (new_MssqlTable (OptObject (Some cfg)) w) in
  fst (new_MssqlTable (OptObject (Some cfg)) w) = Returned tt
  ∧ fst (request started) = Thrown pool_not_initialized
  ∧ pool (settle_connect started) = Some p
  ∧ console (settle_connect started) = console w
  ∧ connecting (settle_connect started) = []
  ∧ events (settle_connect started) = events w ++ [EvConnect cfg]
  ∧ fst (request (settle_connect started)) = Returned (requests w)
  ∧ ∀ options, new_MssqlTable options (settle_connect started)
               = (Returned tt, settle_connect started).
Proof.
  intros Hpool Hidle Hup started.
  assert (Hstart : new_MssqlTable (OptObject (Some cfg)) w
                   = (Returned tt, set_connecting [cfg] (emit (EvConnect cfg) w))).
  { unfold new_MssqlTable. rewrite Hpool, Hidle. reflexivity. }
  assert (Hsettled : settle_connect started
                     = set_pool (Some p)
                         (set_connecting [] (set_connecting [cfg] (emit (EvConnect cfg) w)))).
  { unfold started. rewrite Hstart. unfold settle_connect. simpl. by rewrite Hup. }
  split; [by rewrite Hstart|]. split.
  { unfold started. rewrite Hstart. unfold request. simpl. by rewrite Hpool. }
  rewrite Hsettled. split; [done|]. split; [done|]. split; [done|]. split; [done|].
  split; [unfold request; simpl; reflexivity|].
  intros options. unfold new_MssqlTable. reflexivity.
Qed.

Lemma first_construction_connects_witness :
  pool online = Some {| pool_config := sample_config |}
  ∧ console online = [].
Proof.
  destruct (first_construction_connects (boot ok_driver) sample_config
              {| pool_config := sample_config |}
              ltac:(reflexivity) ltac:(reflexivity) ltac:(reflexivity))
    as (_ & _ & Hp & Hc & _).
  split; [exact Hp | exact Hc].
Defined.

(** X14: the presence check is all that guards the pool: two configured
    constructions that both run before a connection settles both start a
    connection, and a connection that settles successfully stores its
    pool over whatever is stored, so that with both servers reachable
    the pool of the connection that settles last is the one kept. *)
Theorem overlapping_constructions_both_connect
    (w : World) (cfg1 cfg2 : Config) (p1 p2 : ConnectionPool) :
  pool w = None → connecting w = [] →
  connect_answer (driver w) cfg1 = Resolved p1 →
  connect_answer (driver w) cfg2 = Resolved p2 →
  let w1 := snd (new_MssqlTable (OptObject (Some cfg1)) w) in
  let w2 := snd (new_MssqlTable (OptObject (Some cfg2)) w1) in
  fst (new_MssqlTable (OptObject (Some cfg2)) w1) = Returned tt
  ∧ events w2 = events w ++ [EvConnect cfg1; EvConnect cfg2]
  ∧ pool (settle_connect w2) = Some p1
  ∧ pool (settle_connect (settle_connect w2)) = Some p2
  ∧ connecting (settle_connect (settle_connect w2)) = [].
Proof.
  intros Hpool Hidle Hup1 Hup2 w1 w2.
  assert (H1 : new_MssqlTable (OptObject (Some cfg1)) w
               = (Returned tt, set_connecting [cfg1] (emit (EvConnect cfg1) w))).
  { unfold new_MssqlTable. rewrite Hpool, Hidle. reflexivity. }
  assert (H2 : new_MssqlTable (OptObject (Some cfg2)) w1
               = (Returned tt,
                  set_connecting [cfg1; cfg2]
                    (emit (EvConnect cfg2) (set_connecting [cfg1] (emit (EvConnect cfg1) w))))).
  { unfold w1. rewrite H1. unfold new_MssqlTable. simpl. rewrite Hpool. reflexivity. }
  unfold w2. rewrite H2. simpl.
  split; [done|]. split; [by rewrite <- app_assoc|].
  unfold settle_connect. simpl. rewrite Hup1. simpl. rewrite Hup2. simpl. done.
Qed.

Lemma overlapping_constructions_both_connect_witness :
  events (snd (new_MssqlTable (OptObject (Some sample_config))
                 (snd (new_MssqlTable (OptObject (Some sample_config)) (boot ok_driver)))))
  = [EvConnect sample_config; EvConnect sample_config].
Proof.
  destruct (overlapping_constructions_both_connect (boot ok_driver) sample_config sample_config
              {| pool_config := sample_config |} {| pool_config := sample_config |}
              ltac:(reflexivity) ltac:(reflexivity) ltac:(reflexivity) ltac:(reflexivity))
    as (_ & Hev & _).
  exact Hev.
Defined.

(** ** Injection tokens *)





(** ** From the factory to the wire *)


